(** * Mergington High School activities API (src/app.py)

    A shallow embedding of the SQLite-backed FastAPI application: the two
    tables, the SQL statements the handlers issue, the connection context
    manager (commit on normal exit, rollback on an exception), the seeding
    routine [init_db], the read path [load_activities] and the two mutating
    handlers [signup_for_activity] and [unregister_from_activity].

    Strings are sequences of bytes (the UTF-8 text SQLite stores and
    compares); integers are [Z]. *)

From Stdlib Require Import String Ascii ZArith List Bool Permutation Sorted Lia.
From Stdlib Require Import OrderedTypeEx.
Import ListNotations.
Open Scope string_scope.

(** ** Python dicts

    A [dict] keeps its keys in insertion order; assigning to a key that is
    already present replaces the value and leaves the key where it was. *)

Module PyDict.

Definition dict (V : Type) : Type := list (string * V).

Fixpoint get {V : Type} (d : dict V) (k : string) : option V :=
  match d with
  | [] => None
  | (k', v) :: d' => if String.eqb k' k then Some v else get d' k
  end.

(** [d.get(k, default)] *)
Definition get_default {V : Type} (d : dict V) (k : string) (default : V) : V :=
  match get d k with
  | Some v => v
  | None => default
  end.

(** [d[k] = v] *)
Fixpoint set {V : Type} (d : dict V) (k : string) (v : V) : dict V :=
  match d with
  | [] => [(k, v)]
  | (k', v') :: d' =>
      if String.eqb k' k then (k', v) :: d' else (k', v') :: set d' k v
  end.

(** [d.setdefault(k, []).append(x)]: the list stored under [k] (created empty
    when [k] is new) grows by [x] at its end, in place. *)
Definition setdefault_append {A : Type} (d : dict (list A)) (k : string) (x : A)
  : dict (list A) :=
  set d k (get_default d k [] ++ [x])%list.

Definition keys {V : Type} (d : dict V) : list string := map fst d.

End PyDict.

Import PyDict.

(** ** Storage schema

    Rows of [activities] (primary key [name]) and of
    [activity_registrations] (primary key [(activity_name, email)]).  A table
    is the list of its rows in insertion order.  The primary keys are not part
    of the type: the INSERT statements below check them, as SQLite does. *)

Module Activities.
Record row : Type := Row
  { name : string;
    description : string;
    schedule : string;
    max_participants : Z }.
End Activities.

Module Registrations.
Record row : Type := Row
  { activity_name : string;
    email : string }.

Definition eqb (r1 r2 : row) : bool :=
  String.eqb (activity_name r1) (activity_name r2)
  && String.eqb (email r1) (email r2).
End Registrations.

(** The database file once both CREATE TABLE IF NOT EXISTS statements have
    run.  [init_db] is called while the module is imported (line 173), before
    any route can be served, so no handler sees a store without the tables. *)
Record database : Type := Database
  { activities : list Activities.row;
    activity_registrations : list Registrations.row }.

(** A database file that has just been created. *)
Definition empty_db : database := Database [] [].

(** ** Exceptions and the connection monad *)

Inductive exn : Type :=
| HTTPException (status_code : Z) (detail : string)
| IntegrityError (message : string).

(** A computation against an open connection: it reads and writes the
    database and either returns a value or raises. *)
Definition sql (A : Type) : Type := database -> (exn + A) * database.

Definition ret {A : Type} (a : A) : sql A := fun db => (inr a, db).

Definition raise {A : Type} (e : exn) : sql A := fun db => (inl e, db).

Definition bind {A B : Type} (m : sql A) (k : A -> sql B) : sql B :=
  fun db =>
    match m db with
    | (inr a, db') => k a db'
    | (inl e, db') => (inl e, db')
    end.

Declare Scope sql_scope.
Delimit Scope sql_scope with sql.
Notation "x <- m ;; k" := (bind m (fun x => k))
  (at level 61, m at next level, right associativity) : sql_scope.
Notation "m ;; k" := (bind m (fun _ => k))
  (at level 61, right associativity) : sql_scope.
Open Scope sql_scope.

(** [with get_db_connection() as connection: body]: sqlite3's connection
    context manager commits when the body ends normally and rolls the
    transaction back when it raises; the exception then propagates. *)
Definition with_connection {A : Type} (body : sql A) : sql A :=
  fun db =>
    match body db with
    | (inr a, db') => (inr a, db')
    | (inl e, _) => (inl e, db)
    end.

(** [for x in xs: body x] *)
Fixpoint for_each {A : Type} (body : A -> sql unit) (xs : list A) : sql unit :=
  match xs with
  | [] => ret tt
  | x :: xs' => body x ;; for_each body xs'
  end.

(** ** ORDER BY

    TEXT columns compare bytewise (BINARY collation), a proper prefix first:
    this is [String.compare]. *)

Section OrderBy.
Context {A : Type} (leb : A -> A -> bool).

Fixpoint insert_row (x : A) (l : list A) : list A :=
    match l with
    | [] => [x]
    | y :: l' => if leb x y then x :: l else y :: insert_row x l'
    end.

Definition order_by (l : list A) : list A := fold_right insert_row [] l.
End OrderBy.

(** ORDER BY name *)
Definition name_leb (r1 r2 : Activities.row) : bool :=
  (Activities.name r1 <=? Activities.name r2)%string.

(** ORDER BY activity_name, email *)
Definition registration_leb (r1 r2 : Registrations.row) : bool :=
  match String.compare (Registrations.activity_name r1)
                       (Registrations.activity_name r2) with
  | Lt => true
  | Eq => (Registrations.email r1 <=? Registrations.email r2)%string
  | Gt => false
  end.

(** ** SQL statements *)

(** SELECT COUNT( * ) FROM activities *)
Definition count_activities : sql nat :=
  fun db => (inr (length (activities db)), db).

(** INSERT INTO activities (name, description, schedule, max_participants) *)
Definition insert_activity (r : Activities.row) : sql unit :=
  fun db =>
    if existsb (fun r' => String.eqb (Activities.name r') (Activities.name r))
               (activities db)
    then (inl (IntegrityError "UNIQUE constraint failed: activities.name"), db)
    else (inr tt, Database (activities db ++ [r])%list (activity_registrations db)).

(** INSERT INTO activity_registrations (activity_name, email).  The foreign
    key is declared but sqlite3 does not enforce it unless PRAGMA foreign_keys
    is switched on, which the program never does. *)
Definition insert_registration (activity_name email : string) : sql unit :=
  fun db =>
    let r := Registrations.Row activity_name email in
    if existsb (Registrations.eqb r) (activity_registrations db)
    then (inl (IntegrityError
                 "UNIQUE constraint failed: activity_registrations.activity_name, activity_registrations.email"),
          db)
    else (inr tt, Database (activities db) (activity_registrations db ++ [r])%list).

(** SELECT name FROM activities WHERE name = ?, then [fetchone()] *)
Definition select_activity (activity_name : string) : sql (option string) :=
  fun db =>
    (inr (option_map Activities.name
            (find (fun r => String.eqb (Activities.name r) activity_name)
                  (activities db))),
     db).

(** SELECT 1 FROM activity_registrations WHERE activity_name = ? AND email = ?,
    then [fetchone()] *)
Definition select_registration (activity_name email : string) : sql (option Z) :=
  fun db =>
    (inr (option_map (fun _ => 1%Z)
            (find (Registrations.eqb (Registrations.Row activity_name email))
                  (activity_registrations db))),
     db).

(** DELETE FROM activity_registrations WHERE activity_name = ? AND email = ?;
    the value is the cursor's [rowcount]. *)
Definition delete_registration (activity_name email : string) : sql nat :=
  fun db =>
    let r := Registrations.Row activity_name email in
    let kept :=
      filter (fun r' => negb (Registrations.eqb r r')) (activity_registrations db) in
    (inr (length (activity_registrations db) - length kept),
     Database (activities db) kept).

(** SELECT name, description, schedule, max_participants FROM activities
    ORDER BY name *)
Definition select_activities : sql (list Activities.row) :=
  fun db => (inr (order_by name_leb (activities db)), db).

(** SELECT activity_name, email FROM activity_registrations
    ORDER BY activity_name, email *)
Definition select_registrations : sql (list Registrations.row) :=
  fun db => (inr (order_by registration_leb (activity_registrations db)), db).

(** ** The application *)

(** The value stored under an activity name, in [DEFAULT_ACTIVITIES] and in
    the answer of GET /activities. *)
Module Activity.
Record t : Type := Make
  { description : string;
    schedule : string;
    max_participants : Z;
    participants : list string }.
End Activity.

Definition DEFAULT_ACTIVITIES : dict Activity.t :=
  [ ("Chess Club",
     Activity.Make "Learn strategies and compete in chess tournaments"
       "Fridays, 3:30 PM - 5:00 PM" 12
       ["michael@mergington.edu"; "daniel@mergington.edu"]);
    ("Programming Class",
     Activity.Make "Learn programming fundamentals and build software projects"
       "Tuesdays and Thursdays, 3:30 PM - 4:30 PM" 20
       ["emma@mergington.edu"; "sophia@mergington.edu"]);
    ("Gym Class",
     Activity.Make "Physical education and sports activities"
       "Mondays, Wednesdays, Fridays, 2:00 PM - 3:00 PM" 30
       ["john@mergington.edu"; "olivia@mergington.edu"]);
    ("Soccer Team",
     Activity.Make "Join the school soccer team and compete in matches"
       "Tuesdays and Thursdays, 4:00 PM - 5:30 PM" 22
       ["liam@mergington.edu"; "noah@mergington.edu"]);
    ("Basketball Team",
     Activity.Make "Practice and play basketball with the school team"
       "Wednesdays and Fridays, 3:30 PM - 5:00 PM" 15
       ["ava@mergington.edu"; "mia@mergington.edu"]);
    ("Art Club",
     Activity.Make "Explore your creativity through painting and drawing"
       "Thursdays, 3:30 PM - 5:00 PM" 15
       ["amelia@mergington.edu"; "harper@mergington.edu"]);
    ("Drama Club",
     Activity.Make "Act, direct, and produce plays and performances"
       "Mondays and Wednesdays, 4:00 PM - 5:30 PM" 20
       ["ella@mergington.edu"; "scarlett@mergington.edu"]);
    ("Math Club",
     Activity.Make "Solve challenging problems and participate in math competitions"
       "Tuesdays, 3:30 PM - 4:30 PM" 10
       ["james@mergington.edu"; "benjamin@mergington.edu"]);
    ("Debate Team",
     Activity.Make "Develop public speaking and argumentation skills"
       "Fridays, 4:00 PM - 5:30 PM" 12
       ["charlotte@mergington.edu"; "henry@mergington.edu"]) ].

(** The body of the loop over [DEFAULT_ACTIVITIES.items()]. *)
Definition seed_activity (item : string * Activity.t) : sql unit :=
  let '(activity_name, activity) := item in
  insert_activity
    (Activities.Row activity_name (Activity.description activity)
       (Activity.schedule activity) (Activity.max_participants activity)) ;;
  for_each (fun email => insert_registration activity_name email)
           (Activity.participants activity).

(** [init_db].  The two CREATE TABLE IF NOT EXISTS statements come first and
    leave a [database] as it is. *)
Definition init_db : sql unit :=
  with_connection
    (existing_activity_count <- count_activities ;;
     if Nat.eqb existing_activity_count 0
     then for_each seed_activity DEFAULT_ACTIVITIES
     else ret tt).

(** The first loop of [load_activities]: registrations grouped by activity. *)
Definition group_participants (registrations : list Registrations.row)
  : dict (list string) :=
  fold_left
    (fun participants_by_activity registration =>
       setdefault_append participants_by_activity
         (Registrations.activity_name registration)
         (Registrations.email registration))
    registrations [].

(** The second loop of [load_activities]: one entry per activity row. *)
Definition build_activities (participants_by_activity : dict (list string))
    (activity_rows : list Activities.row) : dict Activity.t :=
  fold_left
    (fun activities row =>
       set activities (Activities.name row)
         (Activity.Make (Activities.description row) (Activities.schedule row)
            (Activities.max_participants row)
            (get_default participants_by_activity (Activities.name row) [])))
    activity_rows [].

(** [load_activities]: both SELECTs run inside the connection block, the two
    loops after it. *)
Definition load_activities : sql (dict Activity.t) :=
  rows <- with_connection
            (activity_rows <- select_activities ;;
             registrations <- select_registrations ;;
             ret (activity_rows, registrations)) ;;
  let '(activity_rows, registrations) := rows in
  let participants_by_activity := group_participants registrations in
  ret (build_activities participants_by_activity activity_rows).

(** GET /activities *)
Definition get_activities : sql (dict Activity.t) := load_activities.

(** POST /activities/{activity_name}/signup.  A [sqlite3.Row] is truthy as
    soon as it has a column, so [not activity] holds exactly when
    [fetchone()] gave [None]. *)
Definition signup_for_activity (activity_name email : string) : sql (dict string) :=
  with_connection
    (activity <- select_activity activity_name ;;
     match activity with
     | None => raise (HTTPException 404 "Activity not found")
     | Some _ =>
         existing_registration <- select_registration activity_name email ;;
         match existing_registration with
         | Some _ => raise (HTTPException 400 "Student is already signed up")
         | None => insert_registration activity_name email
         end
     end) ;;
  ret [("message", "Signed up " ++ email ++ " for " ++ activity_name)].

(** DELETE /activities/{activity_name}/unregister *)
Definition unregister_from_activity (activity_name email : string)
  : sql (dict string) :=
  with_connection
    (activity <- select_activity activity_name ;;
     match activity with
     | None => raise (HTTPException 404 "Activity not found")
     | Some _ =>
         rowcount <- delete_registration activity_name email ;;
         if Nat.eqb rowcount 0
         then raise (HTTPException 400 "Student is not signed up for this activity")
         else ret tt
     end) ;;
  ret [("message", "Unregistered " ++ email ++ " from " ++ activity_name)].

(** ** Predicates on the stored state *)

(** The activity named [A] exists in storage. *)
Definition activity_exists (db : database) (A : string) : Prop :=
  In A (map Activities.name (activities db)).

(** There is a registration row [(A, e)]. *)
Definition registered (db : database) (A e : string) : Prop :=
  In (Registrations.Row A e) (activity_registrations db).

(** Number of registration rows of activity [A]. *)
Definition registration_count (db : database) (A : string) : nat :=
  length (filter (fun r => String.eqb (Registrations.activity_name r) A)
                 (activity_registrations db)).

(** The primary key of [activity_registrations] holds. *)
Definition registrations_unique (db : database) : Prop :=
  NoDup (activity_registrations db).

(** The primary key of [activities] holds. *)
Definition names_unique (db : database) : Prop :=
  NoDup (map Activities.name (activities db)).

(** The database with one more registration row at the end of its table. *)
Definition with_registration (db : database) (A e : string) : database :=
  Database (activities db)
           (activity_registrations db ++ [Registrations.Row A e])%list.

(** The emails registered for [A], in table order. *)
Definition registered_emails (db : database) (A : string) : list string :=
  map Registrations.email
      (filter (fun r => String.eqb (Registrations.activity_name r) A)
              (activity_registrations db)).

(** A list of strings in ascending order. *)
Definition ascending (l : list string) : Prop :=
  StronglySorted (fun a b => (a <=? b)%string = true) l.

(** The operations of the service, and the states they can produce from a
    database file that has just been created. *)
Inductive operation : Type :=
| Bootstrap
| ListActivities
| Signup (A e : string)
| Unregister (A e : string).

(** What an operation answers: only the state it leaves matters here. *)
Definition run_sql (op : operation) : sql unit :=
  match op with
  | Bootstrap => init_db
  | ListActivities => get_activities ;; ret tt
  | Signup A e => signup_for_activity A e ;; ret tt
  | Unregister A e => unregister_from_activity A e ;; ret tt
  end.

Definition run (op : operation) (db : database) : database :=
  snd (run_sql op db).

Inductive reachable : database -> Prop :=
| reachable_empty : reachable empty_db
| reachable_run (op : operation) (db : database) :
    reachable db -> reachable (run op db).

(** A computation keeps the property [P] of the database, whether it returns
    or raises. *)
Definition preserves {A : Type} (P : database -> Prop) (m : sql A) : Prop :=
  forall db, P db -> P (snd (m db)).

(** The database after the first start of the service on a fresh file. *)
Definition seeded_db : database := Eval vm_compute in snd (init_db empty_db).

(** An activity whose two places are both taken. *)
Definition full_db : database :=
  Database
    [Activities.Row "Chess Club" "Learn strategies and compete in chess tournaments"
       "Fridays, 3:30 PM - 5:00 PM" 2]
    [Registrations.Row "Chess Club" "michael@mergington.edu";
     Registrations.Row "Chess Club" "daniel@mergington.edu"].

(** Every registration row names an activity that is stored: what the
    declared foreign key asks for. *)
Definition references_ok (db : database) : Prop :=
  forall r, In r (activity_registrations db) ->
            activity_exists db (Registrations.activity_name r).

(** The registrations left by DELETE ... WHERE activity_name = A AND email = e. *)
Definition without_registration (db : database) (A e : string) : database :=
  Database (activities db)
    (filter (fun r => negb (Registrations.eqb (Registrations.Row A e) r))
            (activity_registrations db)).





(** * Facts about the embedding *)

(** ** Rows and lookups *)

Lemma registration_eqb_eq (r1 r2 : Registrations.row) :
  Registrations.eqb r1 r2 = true <-> r1 = r2.
Proof.
  destruct r1 as [a1 e1], r2 as [a2 e2]; unfold Registrations.eqb; simpl.
  rewrite andb_true_iff, !String.eqb_eq. split.
  - intros [-> ->]; reflexivity.
  - intros H; inversion H; auto.
Qed.

Lemma registration_eqb_refl (r : Registrations.row) : Registrations.eqb r r = true.
Proof. apply registration_eqb_eq; reflexivity. Qed.

Lemma existsb_registration (r : Registrations.row) (l : list Registrations.row) :
  existsb (Registrations.eqb r) l = true <-> In r l.
Proof.
  rewrite existsb_exists. split.
  - intros [x [Hin Heq]]. apply registration_eqb_eq in Heq. now subst.
  - intros Hin. exists r. split; [assumption | apply registration_eqb_refl].
Qed.

Lemma find_registration_some (r : Registrations.row) (l : list Registrations.row) :
  In r l -> find (Registrations.eqb r) l = Some r.
Proof.
  induction l as [|x l IH]; simpl; [tauto|].
  intros Hin. destruct (Registrations.eqb r x) eqn:E.
  - apply registration_eqb_eq in E. now subst.
  - destruct Hin as [->|Hin]; [|auto].
    rewrite registration_eqb_refl in E. discriminate.
Qed.

Lemma find_registration_none (r : Registrations.row) (l : list Registrations.row) :
  ~ In r l -> find (Registrations.eqb r) l = None.
Proof.
  intros Hnin. destruct (find (Registrations.eqb r) l) eqn:E; [|reflexivity].
  apply find_some in E. destruct E as [Hin Heq].
  apply registration_eqb_eq in Heq. subst. contradiction.
Qed.

Lemma filter_other_registrations (r : Registrations.row) (l : list Registrations.row) :
  ~ In r l -> filter (fun r' => negb (Registrations.eqb r r')) l = l.
Proof.
  induction l as [|x l IH]; simpl; [reflexivity|].
  intros Hnin. destruct (Registrations.eqb r x) eqn:E; simpl.
  - apply registration_eqb_eq in E. subst. tauto.
  - f_equal. apply IH. tauto.
Qed.

Lemma database_eta (db : database) :
  Database (activities db) (activity_registrations db) = db.
Proof. destruct db; reflexivity. Qed.

(** ** The SQL statements on their own *)

Lemma select_activity_found (db : database) (A : string) :
  activity_exists db A -> select_activity A db = (inr (Some A), db).
Proof.
  unfold activity_exists, select_activity. intros Hin.
  apply in_map_iff in Hin. destruct Hin as [r [Hname Hin]].
  destruct (find (fun r0 => String.eqb (Activities.name r0) A) (activities db)) eqn:E.
  - apply find_some in E. destruct E as [_ E]. apply String.eqb_eq in E.
    simpl. now rewrite E.
  - apply (find_none _ _ E) in Hin. rewrite Hname, String.eqb_refl in Hin.
    discriminate.
Qed.

Lemma select_activity_missing (db : database) (A : string) :
  ~ activity_exists db A -> select_activity A db = (inr None, db).
Proof.
  unfold activity_exists, select_activity. intros Hnin.
  destruct (find (fun r0 => String.eqb (Activities.name r0) A) (activities db)) eqn:E;
    [|reflexivity].
  apply find_some in E. destruct E as [Hin E]. apply String.eqb_eq in E.
  exfalso. apply Hnin. apply in_map_iff. now exists r.
Qed.

Lemma select_registration_found (db : database) (A e : string) :
  registered db A e -> select_registration A e db = (inr (Some 1%Z), db).
Proof.
  unfold registered, select_registration. intros Hin.
  now rewrite (find_registration_some _ _ Hin).
Qed.

Lemma select_registration_missing (db : database) (A e : string) :
  ~ registered db A e -> select_registration A e db = (inr None, db).
Proof.
  unfold registered, select_registration. intros Hnin.
  now rewrite (find_registration_none _ _ Hnin).
Qed.

Lemma insert_registration_fresh (db : database) (A e : string) :
  ~ registered db A e ->
  insert_registration A e db = (inr tt, with_registration db A e).
Proof.
  unfold registered, insert_registration, with_registration. intros Hnin.
  destruct (existsb _ _) eqn:E; [|reflexivity].
  apply existsb_registration in E. contradiction.
Qed.

Lemma delete_registration_absent (db : database) (A e : string) :
  ~ registered db A e -> delete_registration A e db = (inr 0, db).
Proof.
  unfold registered, delete_registration. intros Hnin.
  rewrite (filter_other_registrations _ _ Hnin), Nat.sub_diag.
  now rewrite database_eta.
Qed.

Lemma delete_registration_present (db : database) (A e : string) (l1 l2 : list Registrations.row) :
  activity_registrations db = (l1 ++ Registrations.Row A e :: l2)%list ->
  ~ In (Registrations.Row A e) (l1 ++ l2) ->
  delete_registration A e db = (inr 1, Database (activities db) (l1 ++ l2)).
Proof.
  unfold delete_registration. intros Hsplit Hnin. rewrite Hsplit.
  rewrite filter_app. simpl. rewrite registration_eqb_refl. simpl.
  rewrite !filter_other_registrations
    by (intros H; apply Hnin; apply in_or_app; auto).
  f_equal. f_equal. rewrite !length_app. simpl. lia.
Qed.

(** ** The two handlers, case by case *)

Lemma signup_not_found (db : database) (A e : string) :
  ~ activity_exists db A ->
  signup_for_activity A e db = (inl (HTTPException 404 "Activity not found"), db).
Proof.
  intros H. unfold signup_for_activity, bind, with_connection.
  now rewrite (select_activity_missing _ _ H).
Qed.

Lemma signup_duplicate (db : database) (A e : string) :
  activity_exists db A -> registered db A e ->
  signup_for_activity A e db
  = (inl (HTTPException 400 "Student is already signed up"), db).
Proof.
  intros HA Hr. unfold signup_for_activity, bind, with_connection.
  rewrite (select_activity_found _ _ HA).
  now rewrite (select_registration_found _ _ _ Hr).
Qed.

Lemma signup_fresh (db : database) (A e : string) :
  activity_exists db A -> ~ registered db A e ->
  signup_for_activity A e db
  = (inr [("message", "Signed up " ++ e ++ " for " ++ A)], with_registration db A e).
Proof.
  intros HA Hr. unfold signup_for_activity, bind, with_connection.
  rewrite (select_activity_found _ _ HA).
  rewrite (select_registration_missing _ _ _ Hr).
  now rewrite (insert_registration_fresh _ _ _ Hr).
Qed.

Lemma unregister_not_found (db : database) (A e : string) :
  ~ activity_exists db A ->
  unregister_from_activity A e db
  = (inl (HTTPException 404 "Activity not found"), db).
Proof.
  intros H. unfold unregister_from_activity, bind, with_connection.
  now rewrite (select_activity_missing _ _ H).
Qed.

Lemma unregister_absent (db : database) (A e : string) :
  activity_exists db A -> ~ registered db A e ->
  unregister_from_activity A e db
  = (inl (HTTPException 400 "Student is not signed up for this activity"), db).
Proof.
  intros HA Hr. unfold unregister_from_activity, bind, with_connection.
  rewrite (select_activity_found _ _ HA).
  now rewrite (delete_registration_absent _ _ _ Hr).
Qed.

Lemma unregister_present (db : database) (A e : string) (l1 l2 : list Registrations.row) :
  activity_exists db A ->
  activity_registrations db = (l1 ++ Registrations.Row A e :: l2)%list ->
  ~ In (Registrations.Row A e) (l1 ++ l2) ->
  unregister_from_activity A e db
  = (inr [("message", "Unregistered " ++ e ++ " from " ++ A)],
     Database (activities db) (l1 ++ l2)).
Proof.
  intros HA Hsplit Hnin. unfold unregister_from_activity, bind, with_connection.
  rewrite (select_activity_found _ _ HA).
  now rewrite (delete_registration_present _ _ _ _ _ Hsplit Hnin).
Qed.

(** ** Order of strings *)

Lemma compare_refl (s : string) : (s ?= s)%string = Eq.
Proof.
  pose proof (String.compare_antisym s s) as H.
  destruct (s ?= s)%string; simpl in H; congruence.
Qed.

Lemma compare_lt_trans (a b c : string) :
  (a ?= b)%string = Lt -> (b ?= c)%string = Lt -> (a ?= c)%string = Lt.
Proof.
  intros H1 H2. apply String_as_OT.cmp_lt.
  apply String_as_OT.lt_trans with b; now apply String_as_OT.cmp_lt.
Qed.

Lemma string_leb_trans (a b c : string) :
  (a <=? b)%string = true -> (b <=? c)%string = true -> (a <=? c)%string = true.
Proof.
  unfold String.leb. intros H1 H2.
  destruct (a ?= b)%string eqn:Eab; try discriminate.
  - apply String.compare_eq_iff in Eab. now subst.
  - destruct (b ?= c)%string eqn:Ebc; try discriminate.
    + apply String.compare_eq_iff in Ebc. subst. now rewrite Eab.
    + now rewrite (compare_lt_trans _ _ _ Eab Ebc).
Qed.

Lemma name_leb_total (r1 r2 : Activities.row) :
  name_leb r1 r2 = true \/ name_leb r2 r1 = true.
Proof. apply String.leb_total. Qed.

Lemma registration_leb_total (r1 r2 : Registrations.row) :
  registration_leb r1 r2 = true \/ registration_leb r2 r1 = true.
Proof.
  unfold registration_leb.
  rewrite (String.compare_antisym (Registrations.activity_name r2)).
  destruct (Registrations.activity_name r1 ?= Registrations.activity_name r2)%string
    eqn:E; simpl; auto.
  apply String.leb_total.
Qed.

Lemma registration_leb_trans (r1 r2 r3 : Registrations.row) :
  registration_leb r1 r2 = true -> registration_leb r2 r3 = true ->
  registration_leb r1 r3 = true.
Proof.
  unfold registration_leb. intros H12 H23.
  destruct (Registrations.activity_name r1 ?= Registrations.activity_name r2)%string
    eqn:E12; try discriminate;
  destruct (Registrations.activity_name r2 ?= Registrations.activity_name r3)%string
    eqn:E23; try discriminate.
  - apply String.compare_eq_iff in E12, E23. rewrite E12, E23, compare_refl.
    eapply string_leb_trans; eassumption.
  - apply String.compare_eq_iff in E12. now rewrite E12, E23.
  - apply String.compare_eq_iff in E23. now rewrite <- E23, E12.
  - now rewrite (compare_lt_trans _ _ _ E12 E23).
Qed.

(** ** ORDER BY sorts and keeps the rows *)

Section OrderByFacts.
Context {A : Type} (leb : A -> A -> bool).
Hypothesis leb_total : forall x y, leb x y = true \/ leb y x = true.
Hypothesis leb_trans :
    forall x y z, leb x y = true -> leb y z = true -> leb x z = true.

Let le (x y : A) : Prop := leb x y = true.

Lemma insert_row_perm (x : A) (l : list A) :
    Permutation (insert_row leb x l) (x :: l).
  Proof.
    induction l as [|y l IH]; simpl; [reflexivity|].
    destruct (leb x y); [reflexivity|].
    rewrite IH. apply perm_swap.
  Qed.

Lemma order_by_perm (l : list A) : Permutation (order_by leb l) l.
  Proof.
    induction l as [|x l IH]; simpl; [reflexivity|].
    rewrite insert_row_perm. now constructor.
  Qed.

Lemma insert_row_sorted (x : A) (l : list A) :
    StronglySorted le l -> StronglySorted le (insert_row leb x l).
  Proof.
    induction 1 as [|y l Hs IH Hall]; simpl.
    - repeat constructor.
    - destruct (leb x y) eqn:E.
      + constructor; [now constructor|].
        constructor; [exact E|].
        eapply Forall_impl; [|exact Hall]. intros z Hz.
        exact (leb_trans _ _ _ E Hz).
      + constructor; [exact IH|].
        eapply Permutation_Forall; [apply Permutation_sym, insert_row_perm|].
        constructor; [|exact Hall].
        destruct (leb_total x y) as [H|H]; [congruence | exact H].
  Qed.

Lemma order_by_sorted (l : list A) : StronglySorted le (order_by leb l).
  Proof.
    induction l as [|x l IH]; simpl; [constructor|].
    now apply insert_row_sorted.
  Qed.
End OrderByFacts.

Lemma Permutation_filter_compat {A : Type} (f : A -> bool) (l l' : list A) :
  Permutation l l' -> Permutation (filter f l) (filter f l').
Proof.
  induction 1 as [|x l l' _ IH|x y l|l l' l'' _ IH1 _ IH2]; simpl.
  - constructor.
  - destruct (f x); [now constructor | exact IH].
  - destruct (f x), (f y); try reflexivity. apply perm_swap.
  - now transitivity (filter f l').
Qed.

Lemma StronglySorted_map {A B : Type} (R : B -> B -> Prop) (f : A -> B) (l : list A) :
  StronglySorted (fun x y => R (f x) (f y)) l -> StronglySorted R (map f l).
Proof.
  induction 1 as [|x l _ IH Hall]; simpl; constructor; [exact IH|].
  now apply Forall_map.
Qed.

(** ** Python dicts *)

Lemma get_set_same {V : Type} (d : dict V) (k : string) (v : V) :
  get (set d k v) k = Some v.
Proof.
  induction d as [|[k' v'] d IH]; simpl.
  - now rewrite String.eqb_refl.
  - destruct (String.eqb k' k) eqn:E; simpl; rewrite E; auto.
Qed.

Lemma get_set_other {V : Type} (d : dict V) (k k' : string) (v : V) :
  k' <> k -> get (set d k' v) k = get d k.
Proof.
  intros Hne. induction d as [|[k0 v0] d IH]; simpl.
  - apply String.eqb_neq in Hne. now rewrite Hne.
  - destruct (String.eqb k0 k') eqn:E; simpl.
    + apply String.eqb_eq in E. subst k0.
      apply String.eqb_neq in Hne. now rewrite Hne.
    + now rewrite IH.
Qed.

Lemma keys_set_new {V : Type} (d : dict V) (k : string) (v : V) :
  ~ In k (keys d) -> keys (set d k v) = (keys d ++ [k])%list.
Proof.
  induction d as [|[k' v'] d IH]; simpl; [reflexivity|].
  intros Hnin. destruct (String.eqb k' k) eqn:E.
  - apply String.eqb_eq in E. tauto.
  - simpl. f_equal. apply IH. tauto.
Qed.

Lemma get_default_setdefault_append {A : Type} (d : dict (list A))
    (k k' : string) (x : A) :
  get_default (setdefault_append d k' x) k []
  = if String.eqb k' k then (get_default d k [] ++ [x])%list
    else get_default d k [].
Proof.
  unfold setdefault_append, get_default at 1.
  destruct (String.eqb k' k) eqn:E.
  - apply String.eqb_eq in E. subst. now rewrite get_set_same.
  - apply String.eqb_neq in E. now rewrite get_set_other.
Qed.

(** ** The two loops of [load_activities] *)

Lemma group_participants_from (regs : list Registrations.row)
    (d : dict (list string)) (A : string) :
  get_default
    (fold_left
       (fun participants_by_activity registration =>
          setdefault_append participants_by_activity
            (Registrations.activity_name registration)
            (Registrations.email registration))
       regs d) A []
  = (get_default d A []
     ++ map Registrations.email
          (filter (fun r => String.eqb (Registrations.activity_name r) A) regs))%list.
Proof.
  revert d. induction regs as [|r regs IH]; intros d; simpl.
  - now rewrite app_nil_r.
  - rewrite IH, get_default_setdefault_append.
    destruct (String.eqb (Registrations.activity_name r) A); simpl;
      [now rewrite <- app_assoc | reflexivity].
Qed.

Lemma group_participants_get (regs : list Registrations.row) (A : string) :
  get_default (group_participants regs) A []
  = map Registrations.email
      (filter (fun r => String.eqb (Registrations.activity_name r) A) regs).
Proof. unfold group_participants. now rewrite group_participants_from. Qed.

Section BuildActivities.
Variable participants_by_activity : dict (list string).

Let entry (row : Activities.row) : Activity.t :=
    Activity.Make (Activities.description row) (Activities.schedule row)
      (Activities.max_participants row)
      (get_default participants_by_activity (Activities.name row) []).

Let step (activities : dict Activity.t) (row : Activities.row) : dict Activity.t :=
    set activities (Activities.name row) (entry row).

Lemma build_keys_from (rows : list Activities.row) (d : dict Activity.t) :
    NoDup (keys d ++ map Activities.name rows) ->
    keys (fold_left step rows d) = (keys d ++ map Activities.name rows)%list.
  Proof.
    revert d. induction rows as [|r rows IH]; intros d Hnd; simpl.
    - now rewrite app_nil_r.
    - assert (Hnew : ~ In (Activities.name r) (keys d)).
      { intros Hin. apply NoDup_remove_2 in Hnd. apply Hnd.
        apply in_or_app. now left. }
      assert (Hk : keys (step d r) = (keys d ++ [Activities.name r])%list)
        by (unfold step; now apply keys_set_new).
      rewrite IH; rewrite Hk, <- app_assoc; [reflexivity | exact Hnd].
  Qed.

Lemma build_get_other (rows : list Activities.row) (d : dict Activity.t)
      (k : string) :
    ~ In k (map Activities.name rows) ->
    get (fold_left step rows d) k = get d k.
  Proof.
    revert d. induction rows as [|r rows IH]; intros d Hnin; simpl; [reflexivity|].
    simpl in Hnin. rewrite IH by tauto.
    unfold step. apply get_set_other. tauto.
  Qed.

Lemma build_get_from (rows : list Activities.row) (d : dict Activity.t)
      (row : Activities.row) :
    NoDup (map Activities.name rows) -> In row rows ->
    get (fold_left step rows d) (Activities.name row) = Some (entry row).
  Proof.
    revert d. induction rows as [|r rows IH]; intros d Hnd Hin; simpl; [contradiction|].
    inversion Hnd as [|? ? Hnin Hnd']; subst.
    destruct Hin as [->|Hin].
    - rewrite build_get_other by assumption.
      unfold step. apply get_set_same.
    - now apply IH.
  Qed.

Lemma build_activities_keys (rows : list Activities.row) :
    NoDup (map Activities.name rows) ->
    keys (build_activities participants_by_activity rows)
    = map Activities.name rows.
  Proof. intros Hnd. exact (build_keys_from rows [] Hnd). Qed.

Lemma build_activities_get (rows : list Activities.row) (row : Activities.row) :
    NoDup (map Activities.name rows) -> In row rows ->
    get (build_activities participants_by_activity rows) (Activities.name row)
    = Some (Activity.Make (Activities.description row) (Activities.schedule row)
              (Activities.max_participants row)
              (get_default participants_by_activity (Activities.name row) [])).
  Proof. intros Hnd Hin. exact (build_get_from rows [] row Hnd Hin). Qed.
End BuildActivities.

Lemma load_activities_unfold (db : database) :
  load_activities db
  = (inr (build_activities
            (group_participants
               (order_by registration_leb (activity_registrations db)))
            (order_by name_leb (activities db))),
     db).
Proof. reflexivity. Qed.

(** The participants the read path shows for [A]: the registered emails, in
    ascending order. *)
Lemma listed_participants (db : database) (A : string) :
  let ps :=
    get_default
      (group_participants (order_by registration_leb (activity_registrations db)))
      A [] in
  Permutation ps (registered_emails db A) /\ ascending ps.
Proof.
  simpl. rewrite group_participants_get. split.
  - unfold registered_emails. apply Permutation_map, Permutation_filter_compat.
    apply order_by_perm.
  - unfold ascending.
    pose proof (order_by_sorted registration_leb registration_leb_total
                  registration_leb_trans (activity_registrations db)) as Hs.
    induction Hs as [|r l _ IH Hall]; simpl; [constructor|].
    destruct (String.eqb (Registrations.activity_name r) A) eqn:E; [|exact IH].
    simpl. constructor; [exact IH|].
    apply Forall_map. apply Forall_forall. intros r' Hin.
    apply filter_In in Hin. destruct Hin as [Hin E'].
    rewrite Forall_forall in Hall. specialize (Hall r' Hin).
    apply String.eqb_eq in E, E'. unfold registration_leb in Hall.
    now rewrite E, E', compare_refl in Hall.
Qed.

(** ** Properties kept by every computation *)

Section Preserves.
Variable P : database -> Prop.

Lemma preserves_ret {A : Type} (a : A) : preserves P (ret a).
  Proof. intros db H. exact H. Qed.

Lemma preserves_raise {A : Type} (e : exn) : preserves P (@raise A e).
  Proof. intros db H. exact H. Qed.

Lemma preserves_read {A : Type} (m : sql A) :
    (forall db, snd (m db) = db) -> preserves P m.
  Proof. intros Hread db H. now rewrite Hread. Qed.

Lemma preserves_bind {A B : Type} (m : sql A) (k : A -> sql B) :
    preserves P m -> (forall a, preserves P (k a)) -> preserves P (bind m k).
  Proof.
    intros Hm Hk db H. unfold bind. specialize (Hm db H).
    destruct (m db) as [[e|a] db']; simpl in *; [exact Hm|].
    now apply Hk.
  Qed.

Lemma preserves_with_connection {A : Type} (body : sql A) :
    preserves P body -> preserves P (with_connection body).
  Proof.
    intros Hb db H. unfold with_connection. specialize (Hb db H).
    destruct (body db) as [[e|a] db']; simpl in *; assumption.
  Qed.

Lemma preserves_for_each {A : Type} (body : A -> sql unit) (xs : list A) :
    (forall x, preserves P (body x)) -> preserves P (for_each body xs).
  Proof.
    intros Hb. induction xs as [|x xs IH]; simpl.
    - apply preserves_ret.
    - apply preserves_bind; auto.
  Qed.
End Preserves.

Lemma NoDup_snoc {A : Type} (l : list A) (x : A) :
  NoDup l -> ~ In x l -> NoDup (l ++ [x]).
Proof.
  induction 1 as [|y l Hy Hnd IH]; simpl; intros Hx.
  - constructor; [tauto | constructor].
  - constructor.
    + rewrite in_app_iff. simpl. intros [H|[H|[]]]; [tauto|]. subst. tauto.
    + apply IH. tauto.
Qed.

Lemma insert_registration_unique (A e : string) :
  preserves registrations_unique (insert_registration A e).
Proof.
  intros db H. unfold insert_registration.
  destruct (existsb _ _) eqn:E; simpl; [exact H|].
  apply NoDup_snoc; [exact H|].
  intros Hin. apply existsb_registration in Hin. congruence.
Qed.

Lemma insert_activity_unique (r : Activities.row) :
  preserves registrations_unique (insert_activity r).
Proof.
  intros db H. unfold insert_activity. destruct (existsb _ _); exact H.
Qed.

Lemma delete_registration_unique (A e : string) :
  preserves registrations_unique (delete_registration A e).
Proof. intros db H. simpl. now apply NoDup_filter. Qed.

Lemma insert_activity_names (r : Activities.row) :
  preserves names_unique (insert_activity r).
Proof.
  intros db H. unfold insert_activity.
  destruct (existsb _ _) eqn:E; simpl; [exact H|].
  unfold names_unique. simpl. rewrite map_app. simpl.
  apply NoDup_snoc; [exact H|].
  intros Hin. apply in_map_iff in Hin. destruct Hin as [r' [Hname Hin]].
  assert (existsb (fun r0 => String.eqb (Activities.name r0) (Activities.name r))
                  (activities db) = true) as Hex.
  { apply existsb_exists. exists r'. split; [exact Hin|]. now apply String.eqb_eq. }
  congruence.
Qed.

Lemma insert_registration_names (A e : string) :
  preserves names_unique (insert_registration A e).
Proof.
  intros db H. unfold insert_registration. destruct (existsb _ _); exact H.
Qed.

Lemma insert_registration_grows (n : nat) (A e : string) :
  preserves (fun db => n <= length (activities db)) (insert_registration A e).
Proof.
  intros db H. unfold insert_registration. destruct (existsb _ _); exact H.
Qed.

Lemma insert_activity_grows (n : nat) (r : Activities.row) :
  preserves (fun db => n <= length (activities db)) (insert_activity r).
Proof.
  intros db H. unfold insert_activity. destruct (existsb _ _); simpl; [exact H|].
  rewrite length_app. lia.
Qed.

(** ** Seeding *)

Lemma seed_activity_preserves (P : database -> Prop) (item : string * Activity.t) :
  (forall r, preserves P (insert_activity r)) ->
  (forall A e, preserves P (insert_registration A e)) ->
  preserves P (seed_activity item).
Proof.
  intros Ha Hr. destruct item as [activity_name activity]. unfold seed_activity.
  apply preserves_bind; [apply Ha|]. intros _.
  apply preserves_for_each. intros email. apply Hr.
Qed.

Lemma init_db_preserves (P : database -> Prop) :
  (forall r, preserves P (insert_activity r)) ->
  (forall A e, preserves P (insert_registration A e)) ->
  preserves P init_db.
Proof.
  intros Ha Hr. unfold init_db. apply preserves_with_connection.
  apply preserves_bind; [now apply preserves_read|]. intros n.
  destruct (Nat.eqb n 0); [|apply preserves_ret].
  apply preserves_for_each. intros item. now apply seed_activity_preserves.
Qed.

Lemma seed_activity_inserts (item : string * Activity.t) (db db' : database) :
  seed_activity item db = (inr tt, db') -> 1 <= length (activities db').
Proof.
  destruct item as [activity_name activity]. unfold seed_activity, bind.
  destruct (insert_activity _ db) as [[e|[]] db0] eqn:E0; [discriminate|].
  intros E1.
  assert (H0 : 1 <= length (activities db0)).
  { unfold insert_activity in E0. destruct (existsb _ _); [discriminate|].
    inversion E0; subst. simpl. rewrite length_app. simpl. lia. }
  pose proof (preserves_for_each (fun d => 1 <= length (activities d))
                (fun email => insert_registration activity_name email)
                (Activity.participants activity)
                (fun email => insert_registration_grows 1 activity_name email)
                db0 H0) as H1.
  now rewrite E1 in H1.
Qed.

Lemma for_each_seed_inserts (items : dict Activity.t) (db db' : database) :
  items <> [] ->
  for_each seed_activity items db = (inr tt, db') -> activities db' <> [].
Proof.
  destruct items as [|item items]; [congruence|]. intros _. simpl. unfold bind.
  destruct (seed_activity item db) as [[e|[]] db1] eqn:E1; [discriminate|].
  intros E2. apply seed_activity_inserts in E1.
  pose proof (preserves_for_each (fun d => 1 <= length (activities d))
                seed_activity items
                (fun it => seed_activity_preserves _ it
                             (insert_activity_grows 1)
                             (insert_registration_grows 1))
                db1 E1) as H.
  rewrite E2 in H. simpl in H. destruct (activities db'); simpl in *; [lia|congruence].
Qed.

Lemma init_db_populated (db : database) :
  activities db <> [] -> init_db db = (inr tt, db).
Proof.
  intros H. unfold init_db, with_connection, bind, count_activities.
  destruct (activities db); [congruence | reflexivity].
Qed.

Lemma init_db_twice (db : database) :
  init_db (snd (init_db db)) = (fst (init_db db), snd (init_db db))
  \/ init_db (snd (init_db db)) = (inr tt, snd (init_db db)).
Proof.
  destruct (activities db) as [|r rows] eqn:Hact.
  - assert (Hrun : init_db db
                   = with_connection (for_each seed_activity DEFAULT_ACTIVITIES) db).
    { unfold init_db, with_connection, bind, count_activities. now rewrite Hact. }
    destruct (for_each seed_activity DEFAULT_ACTIVITIES db) as [[e|[]] db'] eqn:E.
    + assert (H1 : init_db db = (inl e, db))
        by (rewrite Hrun; unfold with_connection; now rewrite E).
      left. rewrite H1. simpl. exact H1.
    + assert (H1 : init_db db = (inr tt, db'))
        by (rewrite Hrun; unfold with_connection; now rewrite E).
      right. rewrite H1. simpl. apply init_db_populated.
      eapply for_each_seed_inserts; [|exact E]. discriminate.
  - right. rewrite (init_db_populated db) by (rewrite Hact; discriminate).
    simpl. apply init_db_populated. rewrite Hact. discriminate.
Qed.

Lemma build_activities_get_exists (participants_by_activity : dict (list string))
    (rows : list Activities.row) (A : string) :
  In A (map Activities.name rows) ->
  exists row,
    In row rows /\ Activities.name row = A
    /\ get (build_activities participants_by_activity rows) A
       = Some (Activity.Make (Activities.description row) (Activities.schedule row)
                 (Activities.max_participants row)
                 (get_default participants_by_activity A [])).
Proof.
  unfold build_activities.
  induction rows as [|r rows IH] using rev_ind; simpl; [contradiction|].
  rewrite map_app, in_app_iff, fold_left_app. simpl. intros Hin.
  destruct (String.eqb (Activities.name r) A) eqn:E.
  - apply String.eqb_eq in E. exists r. rewrite in_app_iff. simpl.
    repeat split; auto. subst A. apply get_set_same.
  - apply String.eqb_neq in E. destruct Hin as [Hin|[Hin|[]]]; [|contradiction].
    destruct (IH Hin) as [row [Hrow [Hname Hget]]].
    exists row. rewrite in_app_iff. repeat split; auto.
    rewrite get_set_other by assumption. exact Hget.
Qed.

Lemma registration_count_with_registration (db : database) (A e : string) :
  registration_count (with_registration db A e) A = S (registration_count db A).
Proof.
  unfold registration_count, with_registration. simpl.
  rewrite filter_app, length_app. simpl. rewrite String.eqb_refl. simpl. lia.
Qed.

Lemma signup_preserves (P : database -> Prop) (A e : string) :
  preserves P (insert_registration A e) -> preserves P (signup_for_activity A e).
Proof.
  intros Hins. unfold signup_for_activity.
  apply preserves_bind; [|intros; apply preserves_ret].
  apply preserves_with_connection.
  apply preserves_bind; [now apply preserves_read|]. intros [name|];
    [|apply preserves_raise].
  apply preserves_bind; [now apply preserves_read|]. intros [one|];
    [apply preserves_raise | exact Hins].
Qed.

Lemma unregister_preserves (P : database -> Prop) (A e : string) :
  preserves P (delete_registration A e) ->
  preserves P (unregister_from_activity A e).
Proof.
  intros Hdel. unfold unregister_from_activity.
  apply preserves_bind; [|intros; apply preserves_ret].
  apply preserves_with_connection.
  apply preserves_bind; [now apply preserves_read|]. intros [name|];
    [|apply preserves_raise].
  apply preserves_bind; [exact Hdel|]. intros rowcount.
  destruct (Nat.eqb rowcount 0); [apply preserves_raise | apply preserves_ret].
Qed.

Lemma run_registrations_unique (op : operation) :
  preserves registrations_unique (run_sql op).
Proof.
  destruct op as [| |A e|A e]; unfold run_sql.
  - apply init_db_preserves;
      [exact insert_activity_unique | exact insert_registration_unique].
  - apply preserves_read. intros db. reflexivity.
  - apply preserves_bind; [|intros; apply preserves_ret].
    apply signup_preserves, insert_registration_unique.
  - apply preserves_bind; [|intros; apply preserves_ret].
    apply unregister_preserves, delete_registration_unique.
Qed.

Lemma delete_registration_names (A e : string) :
  preserves names_unique (delete_registration A e).
Proof. intros db H. exact H. Qed.

Lemma run_names_unique (op : operation) : preserves names_unique (run_sql op).
Proof.
  destruct op as [| |A e|A e]; unfold run_sql.
  - apply init_db_preserves;
      [exact insert_activity_names | exact insert_registration_names].
  - apply preserves_read. intros db. reflexivity.
  - apply preserves_bind; [|intros; apply preserves_ret].
    apply signup_preserves, insert_registration_names.
  - apply preserves_bind; [|intros; apply preserves_ret].
    apply unregister_preserves, delete_registration_names.
Qed.

(** Both primary keys hold in every state the service can reach, so the
    statements below that assume one of them apply to all such states. *)
Lemma reachable_primary_keys (db : database) :
  reachable db -> names_unique db /\ registrations_unique db.
Proof.
  induction 1 as [|op db _ [IHn IHr]].
  - split; constructor.
  - split; [now apply run_names_unique | now apply run_registrations_unique].
Qed.

Lemma init_db_fresh : init_db empty_db = (inr tt, seeded_db).
Proof. vm_compute. reflexivity. Qed.

Lemma seeded_chess_club_participants :
  match fst (get_activities seeded_db) with
  | inr catalog => option_map Activity.participants (get catalog "Chess Club")
  | inl _ => None
  end
  = Some ["daniel@mergington.edu"; "michael@mergington.edu"].
Proof. vm_compute. reflexivity. Qed.

Ltac in_list := vm_compute; repeat (first [left; reflexivity | right]).

Ltac not_in_list :=
  let H := fresh "H" in
  intros H; vm_compute in H;
  repeat (destruct H as [H|H]; [discriminate H|]);
  exact H.

(** * Properties of the service *)

(** C1: when the activity [A] exists and there is no registration row
    [(A, e)], signup succeeds, adds exactly the row [(A, e)] and answers
    "Signed up e for A"; the same signup on the resulting state raises
    HTTP 400 "Student is already signed up" and changes nothing. *)
Theorem signup_then_already_registered (db : database) (A e : string) :
  activity_exists db A -> ~ registered db A e ->
  exists db',
    signup_for_activity A e db
    = (inr [("message", "Signed up " ++ e ++ " for " ++ A)], db')
    /\ activities db' = activities db
    /\ activity_registrations db'
       = (activity_registrations db ++ [Registrations.Row A e])%list
    /\ signup_for_activity A e db'
       = (inl (HTTPException 400 "Student is already signed up"), db').
Proof.
  intros HA Hr. exists (with_registration db A e).
  split; [now apply signup_fresh|]. split; [reflexivity|]. split; [reflexivity|].
  apply signup_duplicate; [exact HA|].
  unfold registered, with_registration. simpl. apply in_or_app. right. now left.
Qed.

Lemma signup_then_already_registered_witness :
  exists db',
    signup_for_activity "Chess Club" "test@mergington.edu" seeded_db
    = (inr [("message", "Signed up test@mergington.edu for Chess Club")], db')
    /\ activities db' = activities seeded_db
    /\ activity_registrations db'
       = (activity_registrations seeded_db
          ++ [Registrations.Row "Chess Club" "test@mergington.edu"])%list
    /\ signup_for_activity "Chess Club" "test@mergington.edu" db'
       = (inl (HTTPException 400 "Student is already signed up"), db').
Proof.
  apply (signup_then_already_registered seeded_db "Chess Club" "test@mergington.edu").
  - in_list.
  - not_in_list.
Defined.

(** C2: when the activity [A] exists and the row [(A, e)] is registered (in a
    table whose primary key holds), unregister succeeds, removes that one row
    and no other, and answers "Unregistered e from A"; a second unregister on
    the resulting state raises HTTP 400 "Student is not signed up for this
    activity". *)
Theorem unregister_exactly_once (db : database) (A e : string) :
  activity_exists db A -> registered db A e -> registrations_unique db ->
  exists db' l1 l2,
    unregister_from_activity A e db
    = (inr [("message", "Unregistered " ++ e ++ " from " ++ A)], db')
    /\ activities db' = activities db
    /\ activity_registrations db = (l1 ++ Registrations.Row A e :: l2)%list
    /\ activity_registrations db' = (l1 ++ l2)%list
    /\ ~ registered db' A e
    /\ unregister_from_activity A e db'
       = (inl (HTTPException 400 "Student is not signed up for this activity"), db').
Proof.
  intros HA Hr Hnd. destruct (in_split _ _ Hr) as [l1 [l2 Hsplit]].
  assert (Hnin : ~ In (Registrations.Row A e) (l1 ++ l2)).
  { apply NoDup_remove_2. unfold registrations_unique in Hnd. now rewrite <- Hsplit. }
  exists (Database (activities db) (l1 ++ l2)), l1, l2.
  split; [now apply unregister_present|]. split; [reflexivity|].
  split; [exact Hsplit|]. split; [reflexivity|]. split; [exact Hnin|].
  now apply unregister_absent.
Qed.

Lemma unregister_exactly_once_witness :
  exists db' l1 l2,
    unregister_from_activity "Chess Club" "daniel@mergington.edu" seeded_db
    = (inr [("message", "Unregistered daniel@mergington.edu from Chess Club")], db')
    /\ activities db' = activities seeded_db
    /\ activity_registrations seeded_db
       = (l1 ++ Registrations.Row "Chess Club" "daniel@mergington.edu" :: l2)%list
    /\ activity_registrations db' = (l1 ++ l2)%list
    /\ ~ registered db' "Chess Club" "daniel@mergington.edu"
    /\ unregister_from_activity "Chess Club" "daniel@mergington.edu" db'
       = (inl (HTTPException 400 "Student is not signed up for this activity"), db').
Proof.
  apply (unregister_exactly_once seeded_db "Chess Club" "daniel@mergington.edu").
  - in_list.
  - in_list.
  - apply (init_db_preserves registrations_unique insert_activity_unique
             insert_registration_unique empty_db).
    constructor.
Defined.

(** C3: for an activity name [A] that is not in storage, signup and
    unregister both raise HTTP 404 "Activity not found" and leave the stored
    state unchanged, whatever the email. *)
Theorem unknown_activity_not_found (db : database) (A e : string) :
  ~ activity_exists db A ->
  signup_for_activity A e db = (inl (HTTPException 404 "Activity not found"), db)
  /\ unregister_from_activity A e db
     = (inl (HTTPException 404 "Activity not found"), db).
Proof.
  intros H. split; [now apply signup_not_found | now apply unregister_not_found].
Qed.

Lemma unknown_activity_not_found_witness :
  signup_for_activity "Knitting Club" "test@mergington.edu" seeded_db
  = (inl (HTTPException 404 "Activity not found"), seeded_db)
  /\ unregister_from_activity "Knitting Club" "test@mergington.edu" seeded_db
     = (inl (HTTPException 404 "Activity not found"), seeded_db).
Proof.
  apply (unknown_activity_not_found seeded_db "Knitting Club" "test@mergington.edu").
  not_in_list.
Defined.

(** C4: when the activity [A] exists and [(A, e)] is not registered, signup
    followed by unregister of the same pair gives back exactly the database
    it started from; the registration count of [A] goes up by one in between
    and is back at its original value at the end. *)
Theorem signup_unregister_round_trip (db : database) (A e : string) :
  activity_exists db A -> ~ registered db A e ->
  exists db1 m1 m2,
    signup_for_activity A e db = (inr m1, db1)
    /\ registration_count db1 A = S (registration_count db A)
    /\ unregister_from_activity A e db1 = (inr m2, db).
Proof.
  intros HA Hr. exists (with_registration db A e). do 2 eexists.
  split; [now apply signup_fresh|].
  split; [apply registration_count_with_registration|].
  rewrite (unregister_present (with_registration db A e) A e
             (activity_registrations db) []).
  - simpl. rewrite app_nil_r, database_eta. reflexivity.
  - exact HA.
  - reflexivity.
  - now rewrite app_nil_r.
Qed.

Lemma signup_unregister_round_trip_witness :
  exists db1 m1 m2,
    signup_for_activity "Chess Club" "test@mergington.edu" seeded_db = (inr m1, db1)
    /\ registration_count db1 "Chess Club"
       = S (registration_count seeded_db "Chess Club")
    /\ unregister_from_activity "Chess Club" "test@mergington.edu" db1
       = (inr m2, seeded_db).
Proof.
  apply (signup_unregister_round_trip seeded_db "Chess Club" "test@mergington.edu").
  - in_list.
  - not_in_list.
Defined.

(** C5: GET /activities only reads.  On a database whose activity names are
    unique (the primary key of [activities]) it leaves the state as it is and
    returns the whole catalog: the keys of the answer are the stored activity
    names, in ascending order, and the entry of each activity carries the
    fields of its row and, as participants, the emails registered for it in
    ascending order (none when nobody is registered). *)
Theorem get_activities_reads_sorted_catalog (db : database) :
  names_unique db ->
  exists catalog,
    get_activities db = (inr catalog, db)
    /\ Permutation (keys catalog) (map Activities.name (activities db))
    /\ ascending (keys catalog)
    /\ forall row, In row (activities db) ->
         exists ps,
           get catalog (Activities.name row)
           = Some (Activity.Make (Activities.description row)
                     (Activities.schedule row) (Activities.max_participants row) ps)
           /\ Permutation ps (registered_emails db (Activities.name row))
           /\ ascending ps
           /\ (registration_count db (Activities.name row) = 0 -> ps = []).
Proof.
  intros Hnames. eexists. split; [apply load_activities_unfold|].
  pose proof (order_by_perm name_leb (activities db)) as Hperm.
  assert (Hnd : NoDup (map Activities.name (order_by name_leb (activities db)))).
  { eapply Permutation_NoDup; [|exact Hnames].
    apply Permutation_map, Permutation_sym, Hperm. }
  rewrite (build_activities_keys _ _ Hnd).
  split; [now apply Permutation_map|]. split.
  - apply StronglySorted_map.
    exact (order_by_sorted name_leb name_leb_total
             (fun x y z => string_leb_trans _ _ _) (activities db)).
  - intros row Hrow. eexists. split.
    + apply build_activities_get; [exact Hnd|].
      eapply Permutation_in; [apply Permutation_sym, Hperm | exact Hrow].
    + destruct (listed_participants db (Activities.name row)) as [Hp Hs].
      split; [exact Hp|]. split; [exact Hs|].
      intros Hzero. apply Permutation_nil. apply Permutation_sym.
      unfold registration_count in Hzero. unfold registered_emails in Hp.
      apply length_zero_iff_nil in Hzero. now rewrite Hzero in Hp.
Qed.

Lemma get_activities_reads_sorted_catalog_witness :
  exists catalog,
    get_activities seeded_db = (inr catalog, seeded_db)
    /\ Permutation (keys catalog) (map Activities.name (activities seeded_db))
    /\ ascending (keys catalog)
    /\ forall row, In row (activities seeded_db) ->
         exists ps,
           get catalog (Activities.name row)
           = Some (Activity.Make (Activities.description row)
                     (Activities.schedule row) (Activities.max_participants row) ps)
           /\ Permutation ps (registered_emails seeded_db (Activities.name row))
           /\ ascending ps
           /\ (registration_count seeded_db (Activities.name row) = 0 -> ps = []).
Proof.
  apply (get_activities_reads_sorted_catalog seeded_db).
  apply (init_db_preserves names_unique insert_activity_names
           insert_registration_names empty_db).
  constructor.
Defined.

(** C6: [init_db] is idempotent.  On a database that already holds an
    activity row it changes nothing; from any starting state, running it a
    second time leaves the state of the first run; and on a fresh file the
    first run gives 9 activities, which the second run keeps, along with the
    number of registration rows. *)
Theorem init_db_idempotent :
  (forall db, activities db <> [] -> init_db db = (inr tt, db))
  /\ (forall db, snd (init_db (snd (init_db db))) = snd (init_db db))
  /\ length (activities (snd (init_db empty_db))) = 9
  /\ length (activities (snd (init_db (snd (init_db empty_db))))) = 9
  /\ length (activity_registrations (snd (init_db (snd (init_db empty_db)))))
     = length (activity_registrations (snd (init_db empty_db))).
Proof.
  split; [exact init_db_populated|]. split.
  - intros db. destruct (init_db_twice db) as [H|H]; now rewrite H.
  - vm_compute. auto.
Qed.

(** C7, as the code has it: on a fresh file, [init_db] followed by
    GET /activities gives exactly 9 entries, one of them "Chess Club", whose
    participants are daniel@mergington.edu and then michael@mergington.edu:
    the read path orders the emails. *)
Theorem fresh_store_catalog :
  exists db catalog entry,
    init_db empty_db = (inr tt, db)
    /\ get_activities db = (inr catalog, db)
    /\ length catalog = 9
    /\ get catalog "Chess Club" = Some entry
    /\ Activity.participants entry
       = ["daniel@mergington.edu"; "michael@mergington.edu"].
Proof.
  exists seeded_db. do 2 eexists.
  split; [exact init_db_fresh|].
  split; [vm_compute; reflexivity|].
  split; [reflexivity|]. split; [vm_compute; reflexivity | reflexivity].
Qed.

(** C7, as the claim states it: the participants of "Chess Club" would come
    back in the order of the seed data, michael@mergington.edu first.  They
    do not. *)
Lemma chess_club_not_in_seed_order :
  ~ exists db catalog entry,
      init_db empty_db = (inr tt, db)
      /\ get_activities db = (inr catalog, db)
      /\ length catalog = 9
      /\ get catalog "Chess Club" = Some entry
      /\ Activity.participants entry
         = ["michael@mergington.edu"; "daniel@mergington.edu"].
Proof.
  intros (db & catalog & entry & Hinit & Hget & _ & Hentry & Hps).
  rewrite init_db_fresh in Hinit.
  assert (Hdb : seeded_db = db) by exact (f_equal snd Hinit). subst db.
  pose proof seeded_chess_club_participants as H.
  rewrite Hget in H. cbn [fst] in H. rewrite Hentry in H. cbn [option_map] in H.
  rewrite Hps in H. discriminate H.
Qed.

(** C8: signup never looks at [max_participants].  When the activity of
    [row] exists and [e] is not registered for it, signup succeeds and the
    activity has one more registration, whatever its capacity; when the
    activity was already full or over capacity, it ends strictly over
    capacity. *)
Theorem signup_ignores_capacity (db : database) (row : Activities.row) (e : string) :
  In row (activities db) -> ~ registered db (Activities.name row) e ->
  exists msg db',
    signup_for_activity (Activities.name row) e db = (inr msg, db')
    /\ registration_count db' (Activities.name row)
       = S (registration_count db (Activities.name row))
    /\ ((Activities.max_participants row
         <= Z.of_nat (registration_count db (Activities.name row)))%Z ->
        (Activities.max_participants row
         < Z.of_nat (registration_count db' (Activities.name row)))%Z).
Proof.
  intros Hrow Hr. do 2 eexists. split.
  - apply signup_fresh; [|exact Hr]. unfold activity_exists. now apply in_map.
  - split; [apply registration_count_with_registration|].
    rewrite registration_count_with_registration. lia.
Qed.

Lemma signup_ignores_capacity_witness :
  exists msg db',
    signup_for_activity "Chess Club" "test@mergington.edu" full_db = (inr msg, db')
    /\ registration_count db' "Chess Club" = 3
    /\ ((2 <= Z.of_nat (registration_count full_db "Chess Club"))%Z ->
        (2 < Z.of_nat (registration_count db' "Chess Club"))%Z).
Proof.
  apply (signup_ignores_capacity full_db
           (Activities.Row "Chess Club"
              "Learn strategies and compete in chess tournaments"
              "Fridays, 3:30 PM - 5:00 PM" 2)
           "test@mergington.edu").
  - in_list.
  - not_in_list.
Defined.

(** C9: every operation of the service (bootstrap, listing, signup,
    unregister) keeps each [(activity_name, email)] pair at most once in the
    registrations, whether it succeeds or fails, and so every state reachable
    from a fresh file has no pair twice. *)
Theorem registrations_stay_unique :
  (forall op db, registrations_unique db -> registrations_unique (run op db))
  /\ (forall db, reachable db -> registrations_unique db).
Proof.
  assert (Hstep : forall op db,
             registrations_unique db -> registrations_unique (run op db))
    by (intros op db; apply run_registrations_unique).
  split; [exact Hstep|].
  induction 1 as [|op db _ IH]; [constructor | now apply Hstep].
Qed.

(** C10: signup does not validate or normalise the email.  For any string
    [e], the empty string included, not yet registered for the existing
    activity [A], signup succeeds, the row [(A, e)] is stored with [e] as it
    was given, and GET /activities then lists [e] among the participants of
    [A]. *)
Theorem signup_stores_email_verbatim (db : database) (A e : string) :
  activity_exists db A -> ~ registered db A e ->
  exists msg db' catalog entry,
    signup_for_activity A e db = (inr msg, db')
    /\ registered db' A e
    /\ get_activities db' = (inr catalog, db')
    /\ get catalog A = Some entry
    /\ In e (Activity.participants entry).
Proof.
  intros HA Hr.
  assert (Hreg : registered (with_registration db A e) A e).
  { unfold registered, with_registration. simpl. apply in_or_app. right. now left. }
  destruct (build_activities_get_exists
              (group_participants
                 (order_by registration_leb
                    (activity_registrations (with_registration db A e))))
              (order_by name_leb (activities (with_registration db A e))) A)
    as [row [_ [_ Hget]]].
  { eapply Permutation_in; [|exact HA].
    apply Permutation_map, Permutation_sym, order_by_perm. }
  do 4 eexists. split; [now apply signup_fresh|]. split; [exact Hreg|].
  split; [apply load_activities_unfold|]. split; [exact Hget|].
  simpl. destruct (listed_participants (with_registration db A e) A) as [Hp _].
  eapply Permutation_in; [apply Permutation_sym, Hp|].
  unfold registered_emails. apply in_map_iff.
  exists (Registrations.Row A e). split; [reflexivity|].
  apply filter_In. split; [exact Hreg|]. simpl. apply String.eqb_refl.
Qed.

Lemma signup_stores_email_verbatim_witness :
  exists msg db' catalog entry,
    signup_for_activity "Chess Club" "" seeded_db = (inr msg, db')
    /\ registered db' "Chess Club" ""
    /\ get_activities db' = (inr catalog, db')
    /\ get catalog "Chess Club" = Some entry
    /\ In "" (Activity.participants entry).
Proof.
  apply (signup_stores_email_verbatim seeded_db "Chess Club" "").
  - in_list.
  - not_in_list.
Defined.

(** * Further properties of the handlers *)

(** ** Outcomes *)

Lemma filter_length_lt {A : Type} (f : A -> bool) (l : list A) (x : A) :
  In x l -> f x = false -> length (filter f l) < length l.
Proof.
  induction l as [|y l IH]; simpl; [contradiction|].
  intros [->|Hin] Hf.
  - rewrite Hf. pose proof (filter_length_le f l). lia.
  - specialize (IH Hin Hf). destruct (f y); simpl; lia.
Qed.

Lemma activity_exists_dec (db : database) (A : string) :
  {activity_exists db A} + {~ activity_exists db A}.
Proof. unfold activity_exists. apply in_dec, string_dec. Qed.

Lemma registered_dec (db : database) (A e : string) :
  {registered db A e} + {~ registered db A e}.
Proof.
  unfold registered.
  destruct (existsb (Registrations.eqb (Registrations.Row A e))
                    (activity_registrations db)) eqn:E.
  - left. now apply existsb_registration.
  - right. intros Hin. apply existsb_registration in Hin. congruence.
Qed.

Lemma unregister_registered (db : database) (A e : string) :
  activity_exists db A -> registered db A e ->
  unregister_from_activity A e db
  = (inr [("message", "Unregistered " ++ e ++ " from " ++ A)],
     without_registration db A e).
Proof.
  intros HA Hr. unfold unregister_from_activity, bind, with_connection.
  rewrite (select_activity_found _ _ HA). unfold delete_registration.
  pose proof (filter_length_lt
                (fun r => negb (Registrations.eqb (Registrations.Row A e) r))
                (activity_registrations db) (Registrations.Row A e) Hr) as Hlt.
  cbv beta in Hlt. rewrite registration_eqb_refl in Hlt. specialize (Hlt eq_refl).
  destruct (Nat.eqb _ 0) eqn:E; [apply Nat.eqb_eq in E; lia | reflexivity].
Qed.


(** X2: unregister has exactly three outcomes: 404 when the activity is
    unknown, 400 when the pair is not registered, and otherwise success with
    every row equal to the pair deleted and the other rows kept in order. *)
Theorem unregister_outcomes (db : database) (A e : string) :
  (~ activity_exists db A
   /\ unregister_from_activity A e db
      = (inl (HTTPException 404 "Activity not found"), db))
  \/ (activity_exists db A /\ ~ registered db A e
      /\ unregister_from_activity A e db
         = (inl (HTTPException 400 "Student is not signed up for this activity"),
            db))
  \/ (activity_exists db A /\ registered db A e
      /\ unregister_from_activity A e db
         = (inr [("message", "Unregistered " ++ e ++ " from " ++ A)],
            without_registration db A e)).
Proof.
  destruct (activity_exists_dec db A) as [HA|HA].
  - right. destruct (registered_dec db A e) as [Hr|Hr].
    + right. auto using unregister_registered.
    + left. auto using unregister_absent.
  - left. auto using unregister_not_found.
Qed.

(** ** Failures change nothing *)






Lemma registration_eqb_false (r1 r2 : Registrations.row) :
  Registrations.eqb r1 r2 = false <-> r1 <> r2.
Proof.
  rewrite <- registration_eqb_eq.
  destruct (Registrations.eqb r1 r2); split; congruence.
Qed.

(** ** What a call does to the registrations *)

(** X4: after a signup for an existing activity, whether it succeeded or was
    refused as a duplicate, the pair is registered and every other pair is
    registered exactly when it was before. *)
Theorem signup_registers_only_the_pair (db : database) (A e : string) :
  activity_exists db A ->
  forall B f,
    registered (snd (signup_for_activity A e db)) B f
    <-> registered db B f \/ (B = A /\ f = e).
Proof.
  intros HA B f. destruct (registered_dec db A e) as [Hr|Hr].
  - rewrite (signup_duplicate _ _ _ HA Hr). simpl. split; [auto|].
    intros [H|[-> ->]]; assumption.
  - rewrite (signup_fresh _ _ _ HA Hr). unfold registered, with_registration.
    simpl. rewrite in_app_iff. simpl. split.
    + intros [H|[H|[]]]; [auto|]. inversion H. auto.
    + intros [H|[-> ->]]; auto.
Qed.

Lemma signup_registers_only_the_pair_witness :
  registered (snd (signup_for_activity "Chess Club" "test@mergington.edu"
                     seeded_db)) "Math Club" "james@mergington.edu"
  <-> registered seeded_db "Math Club" "james@mergington.edu"
      \/ ("Math Club" = "Chess Club"
          /\ "james@mergington.edu" = "test@mergington.edu").
Proof.
  apply (signup_registers_only_the_pair seeded_db "Chess Club"
           "test@mergington.edu").
  in_list.
Defined.

(** X5: after an unregister for an existing activity, whether it succeeded
    or was refused, the pair is not registered and every other pair is
    registered exactly when it was before. *)
Theorem unregister_removes_only_the_pair (db : database) (A e : string) :
  activity_exists db A ->
  forall B f,
    registered (snd (unregister_from_activity A e db)) B f
    <-> registered db B f /\ ~ (B = A /\ f = e).
Proof.
  intros HA B f. destruct (registered_dec db A e) as [Hr|Hr].
  - rewrite (unregister_registered _ _ _ HA Hr).
    unfold registered, without_registration. simpl.
    rewrite filter_In, negb_true_iff, registration_eqb_false. split.
    + intros [Hin Hne]. split; [exact Hin|]. intros [-> ->]. now apply Hne.
    + intros [Hin Hne]. split; [exact Hin|]. intros Heq. apply Hne.
      inversion Heq. auto.
  - rewrite (unregister_absent _ _ _ HA Hr). simpl. split.
    + intros H. split; [exact H|]. intros [-> ->]. contradiction.
    + tauto.
Qed.

Lemma unregister_removes_only_the_pair_witness :
  registered (snd (unregister_from_activity "Chess Club"
                     "michael@mergington.edu" seeded_db))
             "Chess Club" "daniel@mergington.edu"
  <-> registered seeded_db "Chess Club" "daniel@mergington.edu"
      /\ ~ ("Chess Club" = "Chess Club"
            /\ "daniel@mergington.edu" = "michael@mergington.edu").
Proof.
  apply (unregister_removes_only_the_pair seeded_db "Chess Club"
           "michael@mergington.edu").
  in_list.
Defined.

(** ** The activities table *)

Lemma insert_registration_keeps_activities (acts : list Activities.row)
    (A e : string) :
  preserves (fun d => activities d = acts) (insert_registration A e).
Proof.
  intros db H. unfold insert_registration. destruct (existsb _ _); exact H.
Qed.

Lemma delete_registration_keeps_activities (acts : list Activities.row)
    (A e : string) :
  preserves (fun d => activities d = acts) (delete_registration A e).
Proof. intros db H. exact H. Qed.

Lemma handlers_keep_activities (op : operation) (db : database) :
  op <> Bootstrap -> activities (run op db) = activities db.
Proof.
  intros Hop. unfold run.
  assert (Hp : preserves (fun d => activities d = activities db) (run_sql op)).
  { destruct op as [| |A e|A e]; unfold run_sql; [congruence| | |].
    - apply preserves_read. intros d. reflexivity.
    - apply preserves_bind; [|intros; apply preserves_ret].
      apply signup_preserves, insert_registration_keeps_activities.
    - apply preserves_bind; [|intros; apply preserves_ret].
      apply unregister_preserves, delete_registration_keeps_activities. }
  now apply Hp.
Qed.

Lemma activities_nonempty_fixed (op : operation) (db : database) :
  activities db <> [] -> activities (run op db) = activities db.
Proof.
  intros Hne. destruct op as [| |A e|A e];
    try (apply handlers_keep_activities; discriminate).
  unfold run, run_sql. now rewrite init_db_populated.
Qed.

(** X6: listing, signup and unregister never add, delete or alter an
    activity row, on success or on failure; and once the table holds a row,
    [init_db] does not touch it either. *)
Theorem activities_table_is_fixed :
  (forall op db, op <> Bootstrap -> activities (run op db) = activities db)
  /\ (forall op db, activities db <> [] -> activities (run op db) = activities db).
Proof.
  split; [exact handlers_keep_activities | exact activities_nonempty_fixed].
Qed.

(** X7: every state the service can reach from a fresh file is either that
    fresh file or holds exactly the activity rows of the seed data, in the
    order of [DEFAULT_ACTIVITIES]. *)
Theorem reachable_activities_are_the_seed (db : database) :
  reachable db ->
  db = empty_db
  \/ activities db
     = map (fun item =>
              Activities.Row (fst item) (Activity.description (snd item))
                (Activity.schedule (snd item))
                (Activity.max_participants (snd item)))
           DEFAULT_ACTIVITIES.
Proof.
  induction 1 as [|op db _ [IH|IH]].
  - now left.
  - subst db. destruct op as [| |A e|A e].
    + right. vm_compute. reflexivity.
    + left. reflexivity.
    + left. unfold run, run_sql, bind.
      rewrite (signup_not_found empty_db A e) by (intros []). reflexivity.
    + left. unfold run, run_sql, bind.
      rewrite (unregister_not_found empty_db A e) by (intros []). reflexivity.
  - right. rewrite <- IH.
    apply activities_nonempty_fixed. rewrite IH. discriminate.
Qed.

Lemma reachable_activities_are_the_seed_witness :
  run (Signup "Chess Club" "test@mergington.edu") (run Bootstrap empty_db)
  = empty_db
  \/ activities
       (run (Signup "Chess Club" "test@mergington.edu") (run Bootstrap empty_db))
     = map (fun item =>
              Activities.Row (fst item) (Activity.description (snd item))
                (Activity.schedule (snd item))
                (Activity.max_participants (snd item)))
           DEFAULT_ACTIVITIES.
Proof.
  apply (reachable_activities_are_the_seed
           (run (Signup "Chess Club" "test@mergington.edu")
                (run Bootstrap empty_db))).
  apply reachable_run, reachable_run, reachable_empty.
Defined.

(** ** Keys of the two tables *)

(** X9: every operation keeps the activity names unique, on success and on
    failure, so no reachable state holds two activity rows of one name. *)
Theorem activity_names_stay_unique :
  (forall op db, names_unique db -> names_unique (run op db))
  /\ (forall db, reachable db -> names_unique db).
Proof.
  assert (Hstep : forall op db, names_unique db -> names_unique (run op db))
    by (intros op db; apply run_names_unique).
  split; [exact Hstep|].
  induction 1 as [|op db _ IH]; [constructor | now apply Hstep].
Qed.

Lemma insert_activity_references (r : Activities.row) :
  preserves references_ok (insert_activity r).
Proof.
  intros db H. unfold insert_activity. destruct (existsb _ _); simpl; [exact H|].
  intros r0 Hin. simpl in Hin. unfold activity_exists. simpl.
  rewrite map_app, in_app_iff. left. exact (H r0 Hin).
Qed.

Lemma insert_registration_references (A e : string) :
  preserves (fun d => references_ok d /\ activity_exists d A)
            (insert_registration A e).
Proof.
  intros db [H HA]. unfold insert_registration.
  destruct (existsb _ _); simpl; [now split|].
  split; [|exact HA]. intros r Hin. simpl in Hin.
  apply in_app_iff in Hin. destruct Hin as [Hin|[<-|[]]].
  - exact (H r Hin).
  - exact HA.
Qed.

Lemma delete_registration_references (A e : string) :
  preserves references_ok (delete_registration A e).
Proof.
  intros db H r Hin. simpl in Hin. apply filter_In in Hin.
  exact (H r (proj1 Hin)).
Qed.

Lemma seed_activity_references (item : string * Activity.t) :
  preserves references_ok (seed_activity item).
Proof.
  destruct item as [A activity]. intros db H. unfold seed_activity, bind.
  pose proof (insert_activity_references
                (Activities.Row A (Activity.description activity)
                   (Activity.schedule activity)
                   (Activity.max_participants activity)) db H) as H0.
  destruct (insert_activity _ db) as [[e|[]] db0] eqn:E0; simpl in H0; [exact H0|].
  assert (HA : activity_exists db0 A).
  { unfold insert_activity in E0. destruct (existsb _ _); [discriminate|].
    inversion E0; subst. unfold activity_exists. simpl.
    rewrite map_app, in_app_iff. right. now left. }
  exact (proj1 (preserves_for_each
                  (fun d => references_ok d /\ activity_exists d A)
                  (fun email => insert_registration A email)
                  (Activity.participants activity)
                  (fun email => insert_registration_references A email)
                  db0 (conj H0 HA))).
Qed.

Lemma init_db_references : preserves references_ok init_db.
Proof.
  unfold init_db. apply preserves_with_connection.
  apply preserves_bind; [now apply preserves_read|]. intros n.
  destruct (Nat.eqb n 0); [|apply preserves_ret].
  apply preserves_for_each. exact seed_activity_references.
Qed.

Lemma signup_references (A e : string) :
  preserves references_ok (signup_for_activity A e).
Proof.
  intros db H. destruct (activity_exists_dec db A) as [HA|HA].
  - destruct (registered_dec db A e) as [Hr|Hr].
    + now rewrite (signup_duplicate _ _ _ HA Hr).
    + rewrite (signup_fresh _ _ _ HA Hr). simpl.
      pose proof (insert_registration_references A e db (conj H HA)) as H1.
      rewrite (insert_registration_fresh _ _ _ Hr) in H1. exact (proj1 H1).
  - now rewrite (signup_not_found _ _ _ HA).
Qed.

Lemma run_references (op : operation) : preserves references_ok (run_sql op).
Proof.
  destruct op as [| |A e|A e]; unfold run_sql.
  - exact init_db_references.
  - apply preserves_read. intros db. reflexivity.
  - apply preserves_bind; [|intros; apply preserves_ret].
    apply signup_references.
  - apply preserves_bind; [|intros; apply preserves_ret].
    apply unregister_preserves, delete_registration_references.
Qed.

(** X8: although SQLite is never told to enforce the foreign key, every
    operation keeps it: if each registration names a stored activity before
    the call, so it does after, and so it does in every reachable state. *)
Theorem registrations_reference_activities :
  (forall op db, references_ok db -> references_ok (run op db))
  /\ (forall db, reachable db -> references_ok db).
Proof.
  assert (Hstep : forall op db, references_ok db -> references_ok (run op db))
    by (intros op db; apply run_references).
  split; [exact Hstep|].
  induction 1 as [|op db _ IH]; [intros r [] | now apply Hstep].
Qed.

(** X10: on a database whose registrations all name a stored activity,
    [init_db] returns normally: seeding can only collide with rows that
    such a database does not have. *)
Theorem init_db_succeeds (db : database) :
  references_ok db -> fst (init_db db) = inr tt.
Proof.
  intros H. destruct (activities db) as [|row rows] eqn:Hact.
  - destruct (activity_registrations db) as [|r regs] eqn:Hregs.
    + destruct db as [acts rs]. simpl in Hact, Hregs. subst.
      change (Database [] []) with empty_db. now rewrite init_db_fresh.
    + exfalso. specialize (H r). rewrite Hregs in H.
      specialize (H (in_eq r regs)). unfold activity_exists in H.
      now rewrite Hact in H.
  - rewrite init_db_populated; [reflexivity|]. rewrite Hact. discriminate.
Qed.

Lemma init_db_succeeds_witness : fst (init_db seeded_db) = inr tt.
Proof.
  apply (init_db_succeeds seeded_db).
  apply (init_db_references empty_db). intros r [].
Defined.

(** ** What GET /activities shows *)

Lemma in_registered_emails (db : database) (A e : string) :
  In e (registered_emails db A) <-> registered db A e.
Proof.
  unfold registered_emails, registered. rewrite in_map_iff. split.
  - intros [[B f] [Hf Hin]]. simpl in Hf. subst f.
    apply filter_In in Hin. destruct Hin as [Hin HB]. simpl in HB.
    apply String.eqb_eq in HB. now subst B.
  - intros Hin. exists (Registrations.Row A e). split; [reflexivity|].
    apply filter_In. split; [exact Hin|]. simpl. apply String.eqb_refl.
Qed.

(** X11: for every stored activity, with or without unique keys, the answer
    of GET /activities has an entry under its name whose participants are
    exactly the emails registered for it, as many as it has registration
    rows. *)
Theorem listed_participants_are_the_registered (db : database) (A : string) :
  activity_exists db A ->
  exists catalog entry,
    get_activities db = (inr catalog, db)
    /\ get catalog A = Some entry
    /\ (forall e, In e (Activity.participants entry) <-> registered db A e)
    /\ length (Activity.participants entry) = registration_count db A.
Proof.
  intros HA.
  destruct (build_activities_get_exists
              (group_participants
                 (order_by registration_leb (activity_registrations db)))
              (order_by name_leb (activities db)) A)
    as [row [_ [_ Hget]]].
  { eapply Permutation_in; [|exact HA].
    apply Permutation_map, Permutation_sym, order_by_perm. }
  do 2 eexists. split; [apply load_activities_unfold|]. split; [exact Hget|].
  simpl. destruct (listed_participants db A) as [Hp _]. split.
  - intros e. rewrite <- in_registered_emails. split; apply Permutation_in;
      [exact Hp | apply Permutation_sym, Hp].
  - rewrite (Permutation_length Hp). unfold registered_emails, registration_count.
    apply length_map.
Qed.

Lemma listed_participants_are_the_registered_witness :
  exists catalog entry,
    get_activities seeded_db = (inr catalog, seeded_db)
    /\ get catalog "Math Club" = Some entry
    /\ (forall e, In e (Activity.participants entry)
                  <-> registered seeded_db "Math Club" e)
    /\ length (Activity.participants entry)
       = registration_count seeded_db "Math Club".
Proof.
  apply (listed_participants_are_the_registered seeded_db "Math Club").
  in_list.
Defined.

(** X12: the answer of GET /activities has an entry under a name exactly
    when an activity of that name is stored: a name that is not stored is a
    missing key, also when registrations mention it. *)
Theorem listed_keys_are_the_activities (db : database) (A : string) :
  exists catalog,
    get_activities db = (inr catalog, db)
    /\ (get catalog A = None <-> ~ activity_exists db A).
Proof.
  eexists. split; [apply load_activities_unfold|].
  assert (Hnames : In A (map Activities.name (order_by name_leb (activities db)))
                   <-> activity_exists db A).
  { unfold activity_exists.
    pose proof (Permutation_map Activities.name
                  (order_by_perm name_leb (activities db))) as Hp.
    split; apply Permutation_in; [exact Hp | apply Permutation_sym, Hp]. }
  split.
  - intros Hnone HA. apply Hnames in HA.
    destruct (build_activities_get_exists
                (group_participants
                   (order_by registration_leb (activity_registrations db)))
                _ _ HA) as [row [_ [_ Hget]]].
    rewrite Hget in Hnone. discriminate.
  - intros HA. unfold build_activities.
    rewrite build_get_other; [reflexivity|]. now rewrite Hnames.
Qed.

Section SortedUnique.
Context {A : Type} (leb : A -> A -> bool).
Hypothesis leb_total : forall x y, leb x y = true \/ leb y x = true.
Hypothesis leb_trans :
  forall x y z, leb x y = true -> leb y z = true -> leb x z = true.
Hypothesis leb_antisym : forall x y, leb x y = true -> leb y x = true -> x = y.

Lemma sorted_perm_eq (l l' : list A) :
  StronglySorted (fun x y => leb x y = true) l ->
  StronglySorted (fun x y => leb x y = true) l' ->
  Permutation l l' -> l = l'.
Proof.
  intros Hs. revert l'. induction Hs as [|x l _ IH Hx]; intros l' Hs' Hp.
  - apply Permutation_nil in Hp. now subst.
  - destruct Hs' as [|y l' Hs' Hy].
    + apply Permutation_sym, Permutation_nil in Hp. discriminate.
    + assert (Hxy : x = y).
      { assert (Hin : In x (y :: l'))
          by (eapply Permutation_in; [exact Hp | now left]).
        assert (Hin' : In y (x :: l))
          by (eapply Permutation_in; [apply Permutation_sym, Hp | now left]).
        destruct Hin as [->|Hin]; [reflexivity|].
        destruct Hin' as [->|Hin']; [reflexivity|].
        rewrite Forall_forall in Hx, Hy. auto. }
      subst y. f_equal. apply IH; [exact Hs'|].
      now apply Permutation_cons_inv in Hp.
Qed.

Lemma order_by_perm_eq (l l' : list A) :
  Permutation l l' -> order_by leb l = order_by leb l'.
Proof.
  intros Hp. apply sorted_perm_eq; try now apply order_by_sorted.
  rewrite (order_by_perm leb l), Hp. apply Permutation_sym, order_by_perm.
Qed.
End SortedUnique.

Lemma registration_leb_antisym (r1 r2 : Registrations.row) :
  registration_leb r1 r2 = true -> registration_leb r2 r1 = true -> r1 = r2.
Proof.
  unfold registration_leb. destruct r1 as [a1 e1], r2 as [a2 e2]. simpl.
  rewrite (String.compare_antisym a2 a1).
  destruct (a1 ?= a2)%string eqn:E; simpl; intros H1 H2; try discriminate.
  apply String.compare_eq_iff in E. subst a2.
  f_equal. now apply String.leb_antisym.
Qed.

Lemma listing_order_free (db db' : database) :
  activities db' = activities db ->
  Permutation (activity_registrations db) (activity_registrations db') ->
  fst (get_activities db') = fst (get_activities db).
Proof.
  intros Hacts Hp. unfold get_activities. rewrite !load_activities_unfold.
  simpl. rewrite Hacts.
  now rewrite (order_by_perm_eq registration_leb registration_leb_total
                 registration_leb_trans registration_leb_antisym _ _ Hp).
Qed.

(** X13: the answer of GET /activities depends on which registration rows
    are stored, not on the order in which they were inserted. *)
Theorem listing_ignores_insertion_order (db db' : database) :
  activities db' = activities db ->
  Permutation (activity_registrations db) (activity_registrations db') ->
  fst (get_activities db') = fst (get_activities db).
Proof.
  exact (listing_order_free db db').
Qed.

Lemma listing_ignores_insertion_order_witness :
  fst (get_activities
         (Database (activities full_db)
            [Registrations.Row "Chess Club" "daniel@mergington.edu";
             Registrations.Row "Chess Club" "michael@mergington.edu"]))
  = fst (get_activities full_db).
Proof.
  apply (listing_ignores_insertion_order full_db
           (Database (activities full_db)
              [Registrations.Row "Chess Club" "daniel@mergington.edu";
               Registrations.Row "Chess Club" "michael@mergington.edu"])).
  - reflexivity.
  - apply perm_swap.
Defined.

(** X14: unregister followed by signup of the same pair, for a registered
    pair of an existing activity in a table whose primary key holds, both
    succeed; the row moves to the end of the table, and GET /activities
    answers as before. *)
Theorem unregister_signup_keeps_listing (db : database) (A e : string) :
  activity_exists db A -> registered db A e -> registrations_unique db ->
  exists m1 db1 m2 db2,
    unregister_from_activity A e db = (inr m1, db1)
    /\ signup_for_activity A e db1 = (inr m2, db2)
    /\ activities db2 = activities db
    /\ Permutation (activity_registrations db) (activity_registrations db2)
    /\ fst (get_activities db2) = fst (get_activities db).
Proof.
  intros HA Hr Hnd. destruct (in_split _ _ Hr) as [l1 [l2 Hsplit]].
  assert (Hnin : ~ In (Registrations.Row A e) (l1 ++ l2)).
  { apply NoDup_remove_2. unfold registrations_unique in Hnd. now rewrite <- Hsplit. }
  assert (Hp : Permutation (activity_registrations db)
                 ((l1 ++ l2) ++ [Registrations.Row A e])).
  { rewrite Hsplit. rewrite <- Permutation_middle.
    apply Permutation_cons_append. }
  exists [("message", "Unregistered " ++ e ++ " from " ++ A)],
         (Database (activities db) (l1 ++ l2)),
         [("message", "Signed up " ++ e ++ " for " ++ A)],
         (with_registration (Database (activities db) (l1 ++ l2)) A e).
  split; [now apply unregister_present|].
  split; [now apply signup_fresh|]. split; [reflexivity|].
  split; [exact Hp|].
  apply listing_order_free; [reflexivity | exact Hp].
Qed.

Lemma unregister_signup_keeps_listing_witness :
  exists m1 db1 m2 db2,
    unregister_from_activity "Chess Club" "michael@mergington.edu" seeded_db
    = (inr m1, db1)
    /\ signup_for_activity "Chess Club" "michael@mergington.edu" db1
       = (inr m2, db2)
    /\ activities db2 = activities seeded_db
    /\ Permutation (activity_registrations seeded_db) (activity_registrations db2)
    /\ fst (get_activities db2) = fst (get_activities seeded_db).
Proof.
  apply (unregister_signup_keeps_listing seeded_db "Chess Club"
           "michael@mergington.edu").
  - in_list.
  - in_list.
  - apply (init_db_preserves registrations_unique insert_activity_unique
             insert_registration_unique empty_db).
    constructor.
Defined.

(** ** Other activities are not affected *)

Lemma StronglySorted_filter {A : Type} (R : A -> A -> Prop) (p : A -> bool)
    (l : list A) :
  StronglySorted R l -> StronglySorted R (filter p l).
Proof.
  induction 1 as [|x l _ IH Hx]; simpl; [constructor|].
  destruct (p x); [|exact IH]. constructor; [exact IH|].
  rewrite Forall_forall in *. intros y Hy. apply Hx.
  apply filter_In in Hy. tauto.
Qed.

Lemma filter_sorted_registrations (p : Registrations.row -> bool)
    (l : list Registrations.row) :
  filter p (order_by registration_leb l) = order_by registration_leb (filter p l).
Proof.
  apply (sorted_perm_eq registration_leb registration_leb_antisym).
  - apply StronglySorted_filter.
    apply order_by_sorted;
      [exact registration_leb_total | exact registration_leb_trans].
  - apply order_by_sorted;
      [exact registration_leb_total | exact registration_leb_trans].
  - rewrite (order_by_perm registration_leb (filter p l)).
    apply Permutation_filter_compat, order_by_perm.
Qed.

Lemma build_activities_get_ext (pba pba' : dict (list string))
    (rows : list Activities.row) (A : string) :
  get_default pba A [] = get_default pba' A [] ->
  get (build_activities pba rows) A = get (build_activities pba' rows) A.
Proof.
  intros Hps. unfold build_activities.
  induction rows as [|r rows IH] using rev_ind; [reflexivity|].
  rewrite !fold_left_app. simpl.
  destruct (String.eqb (Activities.name r) A) eqn:E.
  - apply String.eqb_eq in E. rewrite <- E in *.
    now rewrite !get_set_same, Hps.
  - apply String.eqb_neq in E. now rewrite !get_set_other.
Qed.

Lemma listing_entry_ext (db db' : database) (A : string) :
  activities db' = activities db ->
  filter (fun r => String.eqb (Registrations.activity_name r) A)
         (activity_registrations db')
  = filter (fun r => String.eqb (Registrations.activity_name r) A)
           (activity_registrations db) ->
  exists c c',
    get_activities db = (inr c, db)
    /\ get_activities db' = (inr c', db')
    /\ get c' A = get c A.
Proof.
  intros Hacts Hregs. do 2 eexists.
  split; [apply load_activities_unfold|]. split; [apply load_activities_unfold|].
  rewrite Hacts. apply build_activities_get_ext.
  now rewrite !group_participants_get, !filter_sorted_registrations, Hregs.
Qed.

Lemma other_rows_with_registration (db : database) (A B f : string) :
  A <> B ->
  filter (fun r => String.eqb (Registrations.activity_name r) A)
         (activity_registrations (with_registration db B f))
  = filter (fun r => String.eqb (Registrations.activity_name r) A)
           (activity_registrations db).
Proof.
  intros Hne. unfold with_registration. simpl. rewrite filter_app. simpl.
  assert (E : String.eqb B A = false) by (apply String.eqb_neq; congruence).
  rewrite E. apply app_nil_r.
Qed.

Lemma other_rows_without_registration (db : database) (A B f : string) :
  A <> B ->
  filter (fun r => String.eqb (Registrations.activity_name r) A)
         (activity_registrations (without_registration db B f))
  = filter (fun r => String.eqb (Registrations.activity_name r) A)
           (activity_registrations db).
Proof.
  intros Hne. unfold without_registration. simpl.
  induction (activity_registrations db) as [|r l IH]; simpl; [reflexivity|].
  destruct (Registrations.eqb (Registrations.Row B f) r) eqn:E; simpl.
  - apply registration_eqb_eq in E. subst r. simpl.
    assert (E : String.eqb B A = false) by (apply String.eqb_neq; congruence).
    now rewrite E.
  - destruct (String.eqb (Registrations.activity_name r) A); [f_equal|]; exact IH.
Qed.

(** X15: a signup or an unregister for activity [B], whatever its outcome,
    leaves the entry that GET /activities shows under any other name [A]
    exactly as it was. *)
Theorem other_activities_listed_as_before (db : database) (A B f : string) :
  A <> B ->
  (exists c c',
     get_activities db = (inr c, db)
     /\ get_activities (snd (signup_for_activity B f db))
        = (inr c', snd (signup_for_activity B f db))
     /\ get c' A = get c A)
  /\ (exists c c',
        get_activities db = (inr c, db)
        /\ get_activities (snd (unregister_from_activity B f db))
           = (inr c', snd (unregister_from_activity B f db))
        /\ get c' A = get c A).
Proof.
  intros Hne. split; apply listing_entry_ext.
  - destruct (activity_exists_dec db B) as [HB|HB];
      [destruct (registered_dec db B f) as [Hr|Hr]|].
    + now rewrite (signup_duplicate _ _ _ HB Hr).
    + now rewrite (signup_fresh _ _ _ HB Hr).
    + now rewrite (signup_not_found _ _ _ HB).
  - destruct (activity_exists_dec db B) as [HB|HB];
      [destruct (registered_dec db B f) as [Hr|Hr]|].
    + now rewrite (signup_duplicate _ _ _ HB Hr).
    + rewrite (signup_fresh _ _ _ HB Hr). now apply other_rows_with_registration.
    + now rewrite (signup_not_found _ _ _ HB).
  - destruct (activity_exists_dec db B) as [HB|HB];
      [destruct (registered_dec db B f) as [Hr|Hr]|].
    + now rewrite (unregister_registered _ _ _ HB Hr).
    + now rewrite (unregister_absent _ _ _ HB Hr).
    + now rewrite (unregister_not_found _ _ _ HB).
  - destruct (activity_exists_dec db B) as [HB|HB];
      [destruct (registered_dec db B f) as [Hr|Hr]|].
    + rewrite (unregister_registered _ _ _ HB Hr).
      now apply other_rows_without_registration.
    + now rewrite (unregister_absent _ _ _ HB Hr).
    + now rewrite (unregister_not_found _ _ _ HB).
Qed.

Lemma other_activities_listed_as_before_witness :
  (exists c c',
     get_activities seeded_db = (inr c, seeded_db)
     /\ get_activities
          (snd (signup_for_activity "Chess Club" "test@mergington.edu" seeded_db))
        = (inr c',
           snd (signup_for_activity "Chess Club" "test@mergington.edu" seeded_db))
     /\ get c' "Math Club" = get c "Math Club")
  /\ (exists c c',
        get_activities seeded_db = (inr c, seeded_db)
        /\ get_activities
             (snd (unregister_from_activity "Chess Club" "test@mergington.edu"
                     seeded_db))
           = (inr c',
              snd (unregister_from_activity "Chess Club" "test@mergington.edu"
                     seeded_db))
        /\ get c' "Math Club" = get c "Math Club").
Proof.
  apply (other_activities_listed_as_before seeded_db "Math Club" "Chess Club"
           "test@mergington.edu").
  discriminate.
Defined.

(** ** The seeding loop *)





